(** * pywatch: a clock-and-reminders window (relogio_UI_pyside.py)

    Shallow embedding of the event handlers of [WatchWindow] and of the
    locale set-up that runs when the module is loaded.

    - Python [str] values are sequences of Unicode code points ([pystr]).
    - The widget tree is a record holding the observable widget state:
      the two clock labels, the input line, the rows of the reminders
      list and the refresh timer.
    - A [QListWidgetItem] is a record; [item_id] stands for the identity
      of the Python/C++ object, which is what [QListWidget.row] compares.
    - What the handlers read from outside the program is an argument:
      the broken-down local time for [update_clock], the items returned
      by [selectedItems()] for [delete_selected], the platform's locale
      data for [strftime] and [setlocale]. *)

From Stdlib Require Import ZArith NArith String Ascii Sorted.
From stdpp Require Import base decidable option numbers list sorting.

Local Open Scope Z_scope.

(* ================================================================== *)
(** ** Python strings *)

Definition pystr := list N.

(** A source-code literal. *)
Definition lit (s : string) : pystr :=
  map N_of_ascii (list_ascii_of_string s).

(** [str.isspace] on one code point: the characters CPython's
    [Py_UNICODE_ISSPACE] accepts. *)
Definition isspace (c : N) : bool :=
  ((9 <=? c) && (c <=? 13) || (28 <=? c) && (c <=? 32)
   || (c =? 133) || (c =? 160) || (c =? 5760)
   || (8192 <=? c) && (c <=? 8202)
   || (c =? 8232) || (c =? 8233) || (c =? 8239) || (c =? 8287)
   || (c =? 12288))%N.

Fixpoint lstrip (s : pystr) : pystr :=
  match s with
  | [] => []
  | c :: s' => if isspace c then lstrip s' else s
  end.

Definition rstrip (s : pystr) : pystr := reverse (lstrip (reverse s)).

(** [str.strip()] without argument. *)
Definition strip (s : pystr) : pystr := rstrip (lstrip s).

(** Truth value of a [str]: [not text] holds exactly for the empty one. *)
Definition py_not (s : pystr) : bool :=
  match s with [] => true | _ :: _ => false end.

(* ================================================================== *)
(** ** The toolkit's enumerations *)

Module Qt.

(** [Qt::ItemFlag] bits. *)
Definition NoItemFlags : Z := 0.
Definition ItemIsSelectable : Z := 1.
Definition ItemIsEditable : Z := 2.
Definition ItemIsDragEnabled : Z := 4.
Definition ItemIsDropEnabled : Z := 8.
Definition ItemIsUserCheckable : Z := 16.
Definition ItemIsEnabled : Z := 32.
Definition ItemIsAutoTristate : Z := 64.
Definition ItemNeverHasChildren : Z := 128.
Definition ItemIsUserTristate : Z := 256.

Inductive CheckState := Unchecked | PartiallyChecked | Checked.

Inductive SelectionMode :=
| NoSelection
| SingleSelection
| MultiSelection
| ExtendedSelection
| ContiguousSelection.

End Qt.

(** [flags & f] is non-zero. *)
Definition has_flag (flags f : Z) : bool := negb (Z.land flags f =? 0).

(* ================================================================== *)
(** ** List items *)

Record QListWidgetItem := mkItem {
  item_id : nat;                          (* object identity *)
  item_text : pystr;
  item_flags : Z;
  item_checkState : option Qt.CheckState  (* Qt.CheckStateRole data, if set *)
}.

(** [QListWidgetItem(text)]: a fresh object with the toolkit's default
    flags and no check-state data. *)
Definition QListWidgetItem_new (id : nat) (text : pystr) : QListWidgetItem :=
  {| item_id := id;
     item_text := text;
     item_flags := Z.lor (Z.lor (Z.lor Qt.ItemIsSelectable Qt.ItemIsUserCheckable)
                                Qt.ItemIsEnabled) Qt.ItemIsDragEnabled;
     item_checkState := None |}.

Definition setFlags (it : QListWidgetItem) (f : Z) : QListWidgetItem :=
  {| item_id := item_id it; item_text := item_text it;
     item_flags := f; item_checkState := item_checkState it |}.

Definition setCheckState (it : QListWidgetItem) (s : Qt.CheckState)
  : QListWidgetItem :=
  {| item_id := item_id it; item_text := item_text it;
     item_flags := item_flags it; item_checkState := Some s |}.

(* ================================================================== *)
(** ** The list widget *)

(** [QListWidget.addItem(item)] with sorting off: the item becomes the
    last row. *)
Definition addItem (rows : list QListWidgetItem) (it : QListWidgetItem)
  : list QListWidgetItem := rows ++ [it].

(** [QListWidget.row(item)]: the row holding that very object, [-1] when
    the list does not hold it. *)
Definition row (rows : list QListWidgetItem) (it : QListWidgetItem) : Z :=
  match list_find (fun x => item_id x = item_id it) rows with
  | Some (i, _) => Z.of_nat i
  | None => -1
  end.

(** [QListWidget.takeItem(row)]: removes the row; a row outside the list
    removes nothing. *)
Definition takeItem (rows : list QListWidgetItem) (r : Z)
  : list QListWidgetItem :=
  if (r <? 0) || (Z.of_nat (length rows) <=? r) then rows
  else delete (Z.to_nat r) rows.

(* ================================================================== *)
(** ** Time formatting *)

(** [time.struct_time], the fields [strftime] reads here. *)
Record struct_time := mkTime {
  tm_year : Z;
  tm_mon : Z;     (* 1..12 *)
  tm_mday : Z;    (* 1..31 *)
  tm_hour : Z;    (* 0..23 *)
  tm_min : Z;     (* 0..59 *)
  tm_sec : Z;     (* 0..61 *)
  tm_wday : Z     (* 0..6, Monday is 0 *)
}.

(** The names an [LC_TIME] locale provides. *)
Record LocaleNames := mkNames {
  day_name : Z -> pystr;     (* %A, by tm_wday *)
  month_name : Z -> pystr    (* %B, by tm_mon *)
}.

Definition digit (d : Z) : N := (48 + Z.to_N d)%N.

(** Two decimal digits, zero padded ([%02d]). *)
Definition pad2 (n : Z) : pystr := [digit (n / 10 mod 10); digit (n mod 10)].

(** Decimal digits of a non-negative number, most significant first;
    [fuel] bounds the number of digits. *)
Fixpoint decimal_go (fuel : nat) (n : Z) (acc : pystr) : pystr :=
  match fuel with
  | O => acc
  | S fuel' =>
      if n <? 10 then digit n :: acc
      else decimal_go fuel' (n / 10) (digit (n mod 10) :: acc)
  end.

(** [%d] of C's printf for a non-negative number: no padding. *)
Definition decimal (n : Z) : pystr :=
  decimal_go (S (Z.to_nat (Z.log2 n))) n [].

Definition percent : N := 37.

(** One conversion specification of [strftime]. *)
Definition directive (names : LocaleNames) (t : struct_time) (c : N) : pystr :=
  if (c =? 72)%N then pad2 (tm_hour t)                 (* %H *)
  else if (c =? 77)%N then pad2 (tm_min t)             (* %M *)
  else if (c =? 83)%N then pad2 (tm_sec t)             (* %S *)
  else if (c =? 100)%N then pad2 (tm_mday t)           (* %d *)
  else if (c =? 65)%N then day_name names (tm_wday t)  (* %A *)
  else if (c =? 66)%N then month_name names (tm_mon t) (* %B *)
  else if (c =? 89)%N then decimal (tm_year t)         (* %Y *)
  else if (c =? percent)%N then [percent]              (* %% *)
  else [percent; c].

(** [time.strftime(format, t)] under the locale names [names]. *)
Fixpoint strftime_at (names : LocaleNames) (fmt : pystr) (t : struct_time)
  : pystr :=
  match fmt with
  | [] => []
  | c :: rest =>
      if (c =? percent)%N then
        match rest with
        | [] => [percent]
        | d :: rest' => directive names t d ++ strftime_at names rest' t
        end
      else c :: strftime_at names rest t
  end.

(* ================================================================== *)
(** ** Locale set-up (module top level) *)

Inductive exn :=
| LocaleError (msg : string)       (* locale.Error *)
| OtherException (name : string).  (* any other BaseException *)

Inductive outcome (A : Type) :=
| Normal (a : A)
| Raised (e : exn).
Arguments Normal {A} a.
Arguments Raised {A} e.

(** What the platform does with a locale identifier: [None] when
    [setlocale] accepts it, otherwise the exception it raises. *)
Definition Platform := string -> option exn.

Record LocaleState := mkLocale {
  lc_time : option string;         (* [None]: the platform default *)
  setlocale_calls : list string    (* identifiers tried so far, oldest first *)
}.

Definition initial_locale : LocaleState :=
  {| lc_time := None; setlocale_calls := [] |}.

(** [locale.setlocale(locale.LC_TIME, loc)]. *)
Definition setlocale (p : Platform) (loc : string) (s : LocaleState)
  : LocaleState * outcome unit :=
  match p loc with
  | None =>
      ({| lc_time := Some loc;
          setlocale_calls := setlocale_calls s ++ [loc] |}, Normal tt)
  | Some e =>
      ({| lc_time := lc_time s;
          setlocale_calls := setlocale_calls s ++ [loc] |}, Raised e)
  end.

(** [for loc in candidates: try: setlocale(LC_TIME, loc); break
    except: pass] *)
Fixpoint locale_loop (p : Platform) (candidates : list string)
  (s : LocaleState) : LocaleState * outcome unit :=
  match candidates with
  | [] => (s, Normal tt)
  | loc :: rest =>
      match setlocale p loc s with
      | (s', Normal _) => (s', Normal tt)           (* break *)
      | (s', Raised _) => locale_loop p rest s'     (* except: pass *)
      end
  end.

Definition locale_candidates : list string :=
  ["pt_BR.UTF-8"; "Portuguese_Brazil.1252"]%string.

Definition module_init (p : Platform) : LocaleState * outcome unit :=
  locale_loop p locale_candidates initial_locale.

(* ================================================================== *)
(** ** The window *)

Record QTimer := mkTimer {
  timer_interval : Z;      (* milliseconds *)
  timer_active : bool;
  timer_singleShot : bool
}.

(** [QTimer(parent)]. *)
Definition QTimer_new : QTimer :=
  {| timer_interval := 0; timer_active := false; timer_singleShot := false |}.

(** [QTimer.start(msec)]. *)
Definition QTimer_start (msec : Z) (t : QTimer) : QTimer :=
  {| timer_interval := msec; timer_active := true;
     timer_singleShot := timer_singleShot t |}.

Record WatchWindow := mkWindow {
  time_label : pystr;
  date_label : pystr;
  rem_input : pystr;
  rem_list : list QListWidgetItem;
  rem_selectionMode : Qt.SelectionMode;
  timer : QTimer;
  next_id : nat    (* identities handed out so far *)
}.

Definition set_labels (tl dl : pystr) (w : WatchWindow) : WatchWindow :=
  {| time_label := tl; date_label := dl; rem_input := rem_input w;
     rem_list := rem_list w; rem_selectionMode := rem_selectionMode w;
     timer := timer w; next_id := next_id w |}.

Definition set_rem_input (s : pystr) (w : WatchWindow) : WatchWindow :=
  {| time_label := time_label w; date_label := date_label w; rem_input := s;
     rem_list := rem_list w; rem_selectionMode := rem_selectionMode w;
     timer := timer w; next_id := next_id w |}.

Definition set_rem_list (l : list QListWidgetItem) (w : WatchWindow)
  : WatchWindow :=
  {| time_label := time_label w; date_label := date_label w;
     rem_input := rem_input w;
     rem_list := l; rem_selectionMode := rem_selectionMode w;
     timer := timer w; next_id := next_id w |}.

Definition set_timer (t : QTimer) (w : WatchWindow) : WatchWindow :=
  {| time_label := time_label w; date_label := date_label w;
     rem_input := rem_input w;
     rem_list := rem_list w; rem_selectionMode := rem_selectionMode w;
     timer := t; next_id := next_id w |}.

Definition alloc (w : WatchWindow) : WatchWindow :=
  {| time_label := time_label w; date_label := date_label w;
     rem_input := rem_input w;
     rem_list := rem_list w; rem_selectionMode := rem_selectionMode w;
     timer := timer w; next_id := S (next_id w) |}.

Definition time_format : pystr := lit "%H:%M:%S".
Definition date_format : pystr := lit "%A, %d %B %Y".

(** [update_clock]: [now] is what [localtime()] returns at the call. *)
Definition update_clock (names : LocaleNames) (now : struct_time)
  (w : WatchWindow) : WatchWindow :=
  set_labels (strftime_at names time_format now)
             (strftime_at names date_format now) w.

(** [add_reminder]. *)
Definition add_reminder (w : WatchWindow) : WatchWindow :=
  let text := strip (rem_input w) in
  if py_not text then w
  else
    let item := QListWidgetItem_new (next_id w) text in
    let item :=
      setFlags item
        (Z.lor (Z.lor (Z.lor (item_flags item) Qt.ItemIsUserCheckable)
                      Qt.ItemIsEnabled) Qt.ItemIsSelectable) in
    let item := setCheckState item Qt.Unchecked in
    let w := set_rem_list (addItem (rem_list w) item) (alloc w) in
    set_rem_input [] w.

(** [delete_selected]: [selected] is the list [selectedItems()] returns
    when the handler starts. *)
Definition delete_selected (selected : list QListWidgetItem) (w : WatchWindow)
  : WatchWindow :=
  foldl (fun w item =>
           let r := row (rem_list w) item in
           set_rem_list (takeItem (rem_list w) r) w)
        w selected.

(** [WatchWindow.__init__], as far as the state above is concerned.
    [QListWidget()] comes up in the selection mode list views start in,
    [SingleSelection]; [__init__] only sets the list's style sheet. *)
Definition WatchWindow_init (names : LocaleNames) (now : struct_time)
  : WatchWindow :=
  let w := {| time_label := []; date_label := []; rem_input := [];
              rem_list := [];
              rem_selectionMode := Qt.SingleSelection;  (* QListWidget() *)
              timer := QTimer_new; next_id := 0 |} in
  let w := set_timer (QTimer_start 1000 (timer w)) w in
  update_clock names now w.

(* ================================================================== *)
(** ** What the toolkit does on the user's behalf *)

(** A click on an item's check box (the item delegate's editor event). *)
Definition toggle_allowed (it : QListWidgetItem) : bool :=
  has_flag (item_flags it) Qt.ItemIsUserCheckable
  && has_flag (item_flags it) Qt.ItemIsEnabled
  && bool_decide (is_Some (item_checkState it)).

Definition next_state (tristate : bool) (s : Qt.CheckState) : Qt.CheckState :=
  if tristate then
    match s with
    | Qt.Unchecked => Qt.PartiallyChecked
    | Qt.PartiallyChecked => Qt.Checked
    | Qt.Checked => Qt.Unchecked
    end
  else
    match s with
    | Qt.Checked => Qt.Unchecked
    | _ => Qt.Checked
    end.

Definition toggle (it : QListWidgetItem) : QListWidgetItem :=
  if toggle_allowed it then
    match item_checkState it with
    | Some s =>
        setCheckState it
          (next_state (has_flag (item_flags it) Qt.ItemIsUserTristate) s)
    | None => it
    end
  else it.

Definition toggle_check (r : nat) (w : WatchWindow) : WatchWindow :=
  set_rem_list (alter toggle r (rem_list w)) w.

(** An item can be selected when it is selectable and enabled. *)
Definition selection_allowed (it : QListWidgetItem) : bool :=
  has_flag (item_flags it) Qt.ItemIsSelectable
  && has_flag (item_flags it) Qt.ItemIsEnabled.

(** The items at the given rows, in the order the rows are listed. *)
Definition items_at (rows : list QListWidgetItem) (sel : list nat)
  : list QListWidgetItem :=
  omap (fun i => rows !! i) sel.

(** Mouse selection in [SingleSelection] mode: a click on a row replaces
    the selection by that row, except that a Ctrl-click on the selected
    row deselects it. *)
Inductive SelectionCommand := ClearAndSelect | Deselect.

Definition selectionCommand_single (ctrl shift already_selected : bool)
  : SelectionCommand :=
  if ctrl && already_selected then Deselect else ClearAndSelect.

Definition select (cmd : SelectionCommand) (r : nat) (sel : list nat)
  : list nat :=
  match cmd with
  | ClearAndSelect => [r]
  | Deselect => filter (fun x => x <> r) sel
  end.

Record click := mkClick { click_row : nat; click_ctrl : bool; click_shift : bool }.

Definition click_single (sel : list nat) (c : click) : list nat :=
  select (selectionCommand_single (click_ctrl c) (click_shift c)
            (bool_decide (click_row c ∈ sel)))
         (click_row c) sel.

(* ================================================================== *)
(** ** The event loop *)

Inductive event :=
| Typed (s : pystr)              (* the user edits the input line to read [s] *)
| AddReminder                    (* add_btn.clicked or rem_input.returnPressed *)
| ToggleCheck (r : nat)          (* a click on the check box of row [r] *)
| DeleteSelected (sel : list nat)  (* del_btn.clicked with rows [sel] selected *)
| Tick (now : struct_time).      (* timer.timeout *)

Definition handle (names : LocaleNames) (w : WatchWindow) (e : event)
  : WatchWindow :=
  match e with
  | Typed s => set_rem_input s w
  | AddReminder => add_reminder w
  | ToggleCheck r => toggle_check r w
  | DeleteSelected sel => delete_selected (items_at (rem_list w) sel) w
  | Tick now => update_clock names now w
  end.

Definition run (names : LocaleNames) (w : WatchWindow) (es : list event)
  : WatchWindow := foldl (handle names) w es.

(** The states the window can be in: construction followed by any
    sequence of events. *)
Definition reachable (w : WatchWindow) : Prop :=
  exists names now es, w = run names (WatchWindow_init names now) es.

(* ================================================================== *)
(** ** Vocabulary of the properties *)

(** The entries of [rows] whose position is not in [sel], in order. *)
Definition survivors (sel : list nat) (rows : list QListWidgetItem)
  : list QListWidgetItem :=
  (filter (fun p => p.1 ∉ sel) (imap pair rows)).*2.

(** The item [add_reminder] builds for the text [text] when [id] is the
    next free identity. *)
Definition new_reminder (id : nat) (text : pystr) : QListWidgetItem :=
  setCheckState
    (setFlags (QListWidgetItem_new id text)
       (Z.lor (Z.lor (Z.lor (item_flags (QListWidgetItem_new id text))
                            Qt.ItemIsUserCheckable)
                     Qt.ItemIsEnabled) Qt.ItemIsSelectable))
    Qt.Unchecked.

(** No white space at either end. *)
Definition trimmed (s : pystr) : Prop :=
  (forall c, head s = Some c -> isspace c = false) /\
  (forall c, last s = Some c -> isspace c = false).

Definition is_digit (c : N) : bool := ((48 <=? c) && (c <=? 57))%N.

Definition colon : N := 58.

(** The shape [HH:MM:SS]: eight characters, digits around two colons. *)
Definition is_HHMMSS (s : pystr) : bool :=
  match s with
  | [h1; h2; c1; m1; m2; c2; s1; s2] =>
      is_digit h1 && is_digit h2 && (c1 =? colon)%N
      && is_digit m1 && is_digit m2 && (c2 =? colon)%N
      && is_digit s1 && is_digit s2
  | _ => false
  end.

(** A broken-down time as [localtime()] produces it, in a year that
    takes four digits. *)
Definition valid_time (t : struct_time) : Prop :=
  1000 <= tm_year t <= 9999 /\ 1 <= tm_mon t <= 12 /\ 1 <= tm_mday t <= 31 /\
  0 <= tm_hour t <= 23 /\ 0 <= tm_min t <= 59 /\ 0 <= tm_sec t <= 61 /\
  0 <= tm_wday t <= 6.

(** The number a string of decimal digits denotes. *)
Definition number_of (s : pystr) : Z :=
  foldl (fun a c => 10 * a + (Z.of_N c - 48)) 0 s.

(** The index and value of the first candidate the platform accepts. *)
Definition first_accepted (p : Platform) (candidates : list string)
  : option (nat * string) :=
  list_find (fun loc => p loc = None) candidates.

(** What holds of every entry of the list in every state of the window. *)
Record item_ok (it : QListWidgetItem) : Prop := mkItemOk {
  ok_text : item_text it <> [];
  ok_trimmed : trimmed (item_text it);
  ok_checkable : has_flag (item_flags it) Qt.ItemIsUserCheckable = true;
  ok_enabled : has_flag (item_flags it) Qt.ItemIsEnabled = true;
  ok_selectable : has_flag (item_flags it) Qt.ItemIsSelectable = true;
  ok_binary : has_flag (item_flags it) Qt.ItemIsUserTristate = false;
  ok_state : is_Some (item_checkState it)
}.

(** What holds of the window in every state.  Identities are handed
    out in increasing order, so a list sorted by identity lists its
    entries in the order they were created and inserted. *)
Record window_inv (w : WatchWindow) : Prop := mkInv {
  inv_items : Forall item_ok (rem_list w);
  inv_order : StronglySorted lt (item_id <$> rem_list w);
  inv_fresh : Forall (fun it => (item_id it < next_id w)%nat) (rem_list w);
  inv_mode : rem_selectionMode w = Qt.SingleSelection;
  inv_timer : timer w = mkTimer 1000 true false
}.

(** A session used to exercise the statements below: two reminders
    are added and the first one is checked. *)
Definition demo_names : LocaleNames :=
  {| day_name := fun _ => lit "Thursday"; month_name := fun _ => lit "June" |}.

Definition demo_time : struct_time := mkTime 2025 6 5 9 3 7 3.

Definition demo_window : WatchWindow :=
  run demo_names (WatchWindow_init demo_names demo_time)
    [Typed (lit "Buy milk"); AddReminder;
     Typed (lit " Call mom "); AddReminder;
     ToggleCheck 0%nat].

(** Timer ticks, and a sequence of events with its ticks left out. *)
Definition is_tick (e : event) : bool :=
  match e with Tick _ => true | _ => false end.

Definition without_ticks (es : list event) : list event :=
  filter (fun e => is_tick e = false) es.

(** Every clock reading in the sequence is a well-formed time. *)
Definition tick_times_valid (es : list event) : Prop :=
  Forall (fun e => match e with Tick now => valid_time now | _ => True end) es.

(** Typing each string in turn and pressing Add after each. *)
Definition type_and_add (ss : list pystr) : list event :=
  ss ≫= (fun s => [Typed s; AddReminder]).

(** The strings typed, and the number of times Add was pressed, in a
    sequence of events. *)
Definition typed (es : list event) : list pystr :=
  omap (fun e => match e with Typed s => Some s | _ => None end) es.

Definition is_add (e : event) : bool :=
  match e with AddReminder => true | _ => false end.

Definition add_presses (es : list event) : nat :=
  length (filter (fun e => is_add e = true) es).

(** Reading a time back from its [HH:MM:SS] form. *)
Definition parse_HHMMSS (s : pystr) : option (Z * Z * Z) :=
  match s with
  | [h1; h2; c1; m1; m2; c2; s1; s2] =>
      if is_HHMMSS s
      then Some (number_of [h1; h2], number_of [m1; m2], number_of [s1; s2])
      else None
  | _ => None
  end.

(** The check box is either empty or ticked. *)
Definition two_state (it : QListWidgetItem) : Prop :=
  item_checkState it = Some Qt.Unchecked \/
  item_checkState it = Some Qt.Checked.

(** The clock readings of the ticks in a sequence of events, and the
    latest reading the window has seen since it was built at [now]. *)
Definition readings (es : list event) : list struct_time :=
  omap (fun e => match e with Tick t => Some t | _ => None end) es.

Definition latest_reading (now : struct_time) (es : list event) : struct_time :=
  default now (last (readings es)).

(** The item with its check box in the other of its two states. *)
Definition flipped (it : QListWidgetItem) : QListWidgetItem :=
  setCheckState it
    (match item_checkState it with
     | Some Qt.Checked => Qt.Unchecked
     | _ => Qt.Checked
     end).

(* ================================================================== *)
(** * Properties *)

(** ** Trimming *)

Section strip_facts.

Lemma lstrip_split (s : pystr) :
  exists ws, s = ws ++ lstrip s /\ Forall (fun c => isspace c = true) ws.
Proof.
  induction s as [|c s [ws [Hs Hws]]]; simpl.
  - exists []. by split.
  - destruct (isspace c) eqn:Hc.
    + exists (c :: ws). split; [by rewrite Hs at 1|by constructor].
    + exists []. by split.
Qed.

Lemma lstrip_head (s : pystr) (c : N) :
  head (lstrip s) = Some c -> isspace c = false.
Proof.
  induction s as [|d s IH]; simpl; [done|].
  destruct (isspace d) eqn:Hd; [done|].
  simpl. by intros [= <-].
Qed.

Lemma rstrip_split (s : pystr) :
  exists ws, s = rstrip s ++ ws /\ Forall (fun c => isspace c = true) ws.
Proof.
  destruct (lstrip_split (reverse s)) as [ws [Hs Hws]].
  exists (reverse ws). split.
  - unfold rstrip. rewrite <- reverse_app, <- Hs. by rewrite reverse_involutive.
  - by apply Forall_reverse.
Qed.

Lemma rstrip_last (s : pystr) (c : N) :
  last (rstrip s) = Some c -> isspace c = false.
Proof.
  unfold rstrip. rewrite last_reverse. apply lstrip_head.
Qed.

Lemma rstrip_head (s : pystr) (c : N) :
  head (rstrip s) = Some c -> head s = Some c.
Proof.
  destruct (rstrip_split s) as [ws [Hs _]].
  intros Hc. rewrite Hs. destruct (rstrip s); [done|]. done.
Qed.

Lemma strip_trimmed (s : pystr) : trimmed (strip s).
Proof.
  split; intros c Hc.
  - apply rstrip_head in Hc. by apply lstrip_head in Hc.
  - by apply rstrip_last in Hc.
Qed.

Lemma py_not_true (s : pystr) : py_not s = true <-> s = [].
Proof. by destruct s. Qed.

Lemma py_not_false (s : pystr) : py_not s = false <-> s <> [].
Proof. by destruct s. Qed.

(** A non-empty trimmed string holds a character that is not white
    space. *)
Lemma trimmed_has_ink (s : pystr) :
  s <> [] -> trimmed s -> exists c, c ∈ s /\ isspace c = false.
Proof.
  intros Hne [Hh _]. destruct s as [|c s]; [done|].
  exists c. split; [left|by apply Hh].
Qed.

End strip_facts.

(** ** Adding a reminder *)

Lemma add_reminder_accepts (w : WatchWindow) :
  strip (rem_input w) <> [] ->
  add_reminder w =
    set_rem_input []
      (set_rem_list
         (rem_list w ++ [new_reminder (next_id w) (strip (rem_input w))])
         (alloc w)).
Proof.
  intros Hne. unfold add_reminder.
  apply py_not_false in Hne. by rewrite Hne.
Qed.

(** C1. When the trimmed input is not empty, [add_reminder] makes the
    list one entry longer; the new entry is the last row, its text is
    the trimmed input and it is unchecked; the rows that were there are
    the same rows at the same places; the input line is empty
    afterwards. *)
Theorem add_reminder_appends (w : WatchWindow) :
  strip (rem_input w) <> [] ->
  let w' := add_reminder w in
  length (rem_list w') = S (length (rem_list w)) /\
  (exists it,
      rem_list w' = rem_list w ++ [it] /\
      last (rem_list w') = Some it /\
      item_text it = strip (rem_input w) /\
      item_checkState it = Some Qt.Unchecked) /\
  (forall i it, rem_list w !! i = Some it -> rem_list w' !! i = Some it) /\
  rem_input w' = [].
Proof.
  intros Hne w'. subst w'. rewrite (add_reminder_accepts w Hne). simpl.
  repeat split.
  - rewrite length_app. simpl. lia.
  - eexists. split; [reflexivity|]. split; [apply last_snoc|]. by split.
  - intros i it Hi. by apply lookup_app_l_Some.
Qed.

Lemma add_reminder_appends_witness :
  let w := set_rem_input (lit "  Buy milk ")
             (WatchWindow_init (mkNames (fun _ => []) (fun _ => []))
                (mkTime 2025 6 5 9 3 7 3)) in
  map item_text (rem_list (add_reminder w)) = [lit "Buy milk"]
  /\ rem_input (add_reminder w) = [].
Proof.
  intros w.
  assert (Hne : strip (rem_input w) <> []) by (vm_compute; discriminate).
  destruct (add_reminder_appends w Hne) as (_ & (it & Hl & _ & Ht & _) & _ & Hin).
  split; [|exact Hin].
  rewrite Hl. simpl. rewrite Ht. reflexivity.
Defined.

(** C4. When the trimmed input is empty, [add_reminder] changes
    nothing: no entry is made, every widget keeps its state and the
    input line keeps what was typed. *)
Theorem add_reminder_blank_noop (w : WatchWindow) :
  strip (rem_input w) = [] ->
  add_reminder w = w.
Proof.
  intros He. unfold add_reminder. by rewrite He.
Qed.

Lemma add_reminder_blank_noop_witness :
  let w := set_rem_input (lit "   ")
             (WatchWindow_init (mkNames (fun _ => []) (fun _ => []))
                (mkTime 2025 6 5 9 3 7 3)) in
  add_reminder w = w /\ rem_input (add_reminder w) = lit "   ".
Proof.
  intros w.
  assert (He : strip (rem_input w) = []) by reflexivity.
  split.
  - exact (add_reminder_blank_noop w He).
  - rewrite (add_reminder_blank_noop w He). reflexivity.
Defined.

(** ** Deleting the selected rows *)

Section filter_facts.

Context {A : Type} (P Q : A -> Prop).
Context `{!forall x, Decision (P x)} `{!forall x, Decision (Q x)}.

Lemma filter_keeps_all (l : list A) : Forall P l -> filter P l = l.
Proof.
  induction 1 as [|x l Hx _ IH]; [done|].
  by rewrite filter_cons_True, IH.
Qed.

Lemma filter_agree (l : list A) :
  (forall x, x ∈ l -> P x <-> Q x) -> filter P l = filter Q l.
Proof.
  induction l as [|x l IH]; intros Hl; [done|].
  assert (Hx : P x <-> Q x) by (apply Hl; left).
  assert (Hr : filter P l = filter Q l)
    by (apply IH; intros y Hy; apply Hl; by right).
  destruct (decide (P x)) as [HP|HP].
  - rewrite !filter_cons_True by tauto. by rewrite Hr.
  - rewrite !filter_cons_False by tauto. exact Hr.
Qed.

End filter_facts.

Section take_item.

Implicit Types (rows : list QListWidgetItem) (it : QListWidgetItem).

Lemma takeItem_nil (r : Z) : takeItem [] r = [].
Proof. unfold takeItem. by destruct (_ || _). Qed.

Lemma takeItem_zero it rows : takeItem (it :: rows) 0 = rows.
Proof. unfold takeItem. simpl. reflexivity. Qed.

Lemma takeItem_succ it rows (i : nat) :
  takeItem (it :: rows) (Z.of_nat (S i)) = it :: takeItem rows (Z.of_nat i).
Proof.
  unfold takeItem. simpl length.
  replace (Z.of_nat (S i) <? 0) with false by (symmetry; apply Z.ltb_ge; lia).
  replace (Z.of_nat i <? 0) with false by (symmetry; apply Z.ltb_ge; lia).
  simpl orb.
  destruct (Z.leb_spec (Z.of_nat (length rows)) (Z.of_nat i)) as [H|H].
  - replace (Z.of_nat (S (length rows)) <=? Z.of_nat (S i)) with true
      by (symmetry; apply Z.leb_le; lia).
    reflexivity.
  - replace (Z.of_nat (S (length rows)) <=? Z.of_nat (S i)) with false
      by (symmetry; apply Z.leb_gt; lia).
    rewrite !Nat2Z.id. reflexivity.
Qed.

Lemma takeItem_sublist rows (r : Z) : takeItem rows r `sublist_of` rows.
Proof.
  unfold takeItem. destruct (_ || _); [done|apply sublist_delete].
Qed.

(** Taking the row of an object out of a list that holds no object
    twice removes that object and nothing else. *)
Lemma takeItem_row rows it :
  NoDup (item_id <$> rows) ->
  takeItem rows (row rows it)
  = filter (fun x => item_id x <> item_id it) rows.
Proof.
  induction rows as [|x rows IH]; intros Hnd.
  - by rewrite takeItem_nil.
  - apply NoDup_cons in Hnd as [Hx Hnd].
    unfold row. simpl list_find.
    destruct (decide (item_id x = item_id it)) as [Heq|Hne].
    + rewrite takeItem_zero.
      rewrite filter_cons_False by (intros H; by apply H).
      symmetry. apply filter_keeps_all.
      apply Forall_forall. intros y Hy Hyx. apply Hx.
      apply list_elem_of_fmap. exists y. split; [congruence|done].
    + rewrite filter_cons_True by done.
      specialize (IH Hnd). unfold row in IH.
      destruct (list_find _ rows) as [[i y]|]; simpl.
      * rewrite <- IH. apply takeItem_succ.
      * rewrite <- IH. unfold takeItem. simpl. reflexivity.
Qed.

End take_item.

Section delete_selected_facts.

Implicit Types (rows selected : list QListWidgetItem) (w : WatchWindow).

Lemma delete_selected_cons it selected w :
  delete_selected (it :: selected) w
  = delete_selected selected
      (set_rem_list (takeItem (rem_list w) (row (rem_list w) it)) w).
Proof. reflexivity. Qed.

(** Only the rows of the list change. *)
Lemma delete_selected_frame selected w :
  delete_selected selected w
  = set_rem_list (rem_list (delete_selected selected w)) w.
Proof.
  revert w. induction selected as [|it selected IH]; intros w.
  - by destruct w.
  - rewrite delete_selected_cons. rewrite IH at 1. reflexivity.
Qed.

Lemma delete_selected_sublist selected w :
  rem_list (delete_selected selected w) `sublist_of` rem_list w.
Proof.
  revert w. induction selected as [|it selected IH]; intros w; [done|].
  rewrite delete_selected_cons.
  etrans; [apply IH|]. apply takeItem_sublist.
Qed.

Lemma NoDup_ids_sublist rows rows' :
  rows' `sublist_of` rows ->
  NoDup (item_id <$> rows) -> NoDup (item_id <$> rows').
Proof.
  intros Hs Hnd.
  assert (Hs' : item_id <$> rows' `sublist_of` item_id <$> rows)
    by (by apply fmap_sublist).
  exact (sublist_NoDup _ _ Hnd Hs').
Qed.

(** The loop removes the objects it is given, whatever their order. *)
Lemma delete_selected_filter selected w :
  NoDup (item_id <$> rem_list w) ->
  rem_list (delete_selected selected w)
  = filter (fun x => item_id x ∉ item_id <$> selected) (rem_list w).
Proof.
  revert w. induction selected as [|it selected IH]; intros w Hnd.
  - simpl. symmetry. apply filter_keeps_all.
    apply Forall_forall. intros x _. apply not_elem_of_nil.
  - rewrite delete_selected_cons, IH; simpl rem_list.
    + rewrite takeItem_row by done. rewrite list_filter_filter.
      apply list_filter_iff. intros x. rewrite fmap_cons, not_elem_of_cons.
      tauto.
    + eapply NoDup_ids_sublist; [apply takeItem_sublist|done].
Qed.

Lemma filter_by_index {A} (P : nat * A -> Prop)
    `{!forall p, Decision (P p)} (f : nat -> nat) (l : list A) :
  (forall i x, l !! i = Some x -> P (f i, x)) ->
  (filter P (imap (fun i x => (f i, x)) l)).*2 = l.
Proof.
  revert f. induction l as [|x l IH]; intros f Hl; [done|].
  rewrite imap_cons, filter_cons_True by (apply (Hl 0%nat); done).
  rewrite fmap_cons. simpl. f_equal.
  apply (IH (f ∘ S)). intros i y Hi. apply (Hl (S i)). exact Hi.
Qed.

Lemma filter_imap_snd {A} (P : A -> Prop) `{!forall x, Decision (P x)}
    (f : nat -> nat) (l : list A) :
  (filter (fun p => P p.2) (imap (fun i x => (f i, x)) l)).*2 = filter P l.
Proof.
  revert f. induction l as [|x l IH]; intros f; [done|].
  rewrite imap_cons. rewrite (filter_cons P), (filter_cons (fun p => P p.2)).
  simpl. specialize (IH (f ∘ S)).
  destruct (decide (P x)); [rewrite fmap_cons; simpl; f_equal|]; exact IH.
Qed.

(** Removing the objects found at the rows [sel] leaves the rows
    whose position is not in [sel]. *)
Lemma filter_items_at rows (sel : list nat) :
  NoDup (item_id <$> rows) ->
  filter (fun x => item_id x ∉ item_id <$> items_at rows sel) rows
  = survivors sel rows.
Proof.
  intros Hnd. unfold survivors.
  rewrite <- (filter_imap_snd
                (fun x => item_id x ∉ item_id <$> items_at rows sel) id rows).
  f_equal. apply filter_agree.
  intros [i x] (j & y & [= -> ->] & Hj)%elem_of_lookup_imap. simpl.
  split; intros Hx Hin; apply Hx; clear Hx.
  - apply list_elem_of_fmap. exists y. split; [done|].
    apply list_elem_of_omap. by exists j.
  - apply list_elem_of_fmap in Hin as (z & Hz & Hin).
    apply list_elem_of_omap in Hin as (k & Hk & Hkz).
    assert (j = k) as ->; [|done].
    eapply (NoDup_lookup _ _ _ _ Hnd).
    + by apply (list_lookup_fmap_Some_2 item_id) in Hj.
    + apply (list_lookup_fmap_Some_2 item_id) in Hkz. by rewrite Hz.
Qed.

Lemma survivors_nil rows : survivors [] rows = rows.
Proof.
  unfold survivors. apply (filter_by_index _ id).
  intros i x _. apply not_elem_of_nil.
Qed.

Lemma survivors_sublist sel rows : survivors sel rows `sublist_of` rows.
Proof.
  unfold survivors.
  rewrite <- (filter_by_index (fun _ => True) id rows) at 2 by done.
  apply fmap_sublist.
  induction (imap _ rows) as [|p l IH]; [done|].
  rewrite (filter_cons_True (fun _ => True)) by done.
  rewrite filter_cons. destruct (decide _); by constructor.
Qed.

(** An entry survives exactly when its position is not selected. *)
Lemma elem_of_survivors sel rows it :
  (it ∈ survivors sel rows) <-> (exists i, (i ∉ sel) /\ rows !! i = Some it).
Proof.
  unfold survivors. rewrite list_elem_of_fmap. split.
  - intros ([i x] & -> & Hin). simpl.
    apply list_elem_of_filter in Hin as [Hi Hin].
    apply elem_of_lookup_imap in Hin as (j & y & [= -> ->] & Hj).
    by exists j.
  - intros (i & Hi & Hl). exists (i, it). split; [done|].
    apply list_elem_of_filter. split; [done|].
    apply elem_of_lookup_imap. by exists i, it.
Qed.

End delete_selected_facts.

(** C2. For every list of selected positions [sel] (empty, contiguous
    or not, in any order), [delete_selected] run on the items at those
    positions leaves exactly the entries whose position is not in
    [sel], unchanged and in their original order, and touches nothing
    but the list; with nothing selected the window is unchanged. *)
Theorem delete_selected_removes_selection (w : WatchWindow) (sel : list nat) :
  NoDup (item_id <$> rem_list w) ->
  let w' := delete_selected (items_at (rem_list w) sel) w in
  rem_list w' = survivors sel (rem_list w) /\
  (forall it, (it ∈ rem_list w') <->
              (exists i, (i ∉ sel) /\ rem_list w !! i = Some it)) /\
  rem_list w' `sublist_of` rem_list w /\
  w' = set_rem_list (rem_list w') w /\
  (sel = [] -> w' = w).
Proof.
  intros Hnd w'.
  assert (Hl : rem_list w' = survivors sel (rem_list w)).
  { subst w'. rewrite delete_selected_filter by done.
    by apply filter_items_at. }
  split; [exact Hl|]. split; [|split; [|split]].
  - intros it. rewrite Hl. apply elem_of_survivors.
  - rewrite Hl. apply survivors_sublist.
  - apply delete_selected_frame.
  - intros ->. subst w'. reflexivity.
Qed.

Lemma delete_selected_removes_selection_witness :
  let w := run (mkNames (fun _ => []) (fun _ => []))
             (WatchWindow_init (mkNames (fun _ => []) (fun _ => []))
                (mkTime 2025 6 5 9 3 7 3))
             [Typed (lit "x"); AddReminder; Typed (lit "y"); AddReminder;
              Typed (lit "x"); AddReminder; ToggleCheck 1%nat] in
  rem_list (delete_selected (items_at (rem_list w) [2; 0]%nat) w)
  = [mkItem 1 (lit "y") 53 (Some Qt.Checked)].
Proof.
  intros w.
  assert (Hnd : NoDup (item_id <$> rem_list w)).
  { apply (bool_decide_unpack _). vm_compute. reflexivity. }
  destruct (delete_selected_removes_selection w [2; 0]%nat Hnd) as [Hl _].
  rewrite Hl. reflexivity.
Defined.

(** ** What every state of the window satisfies *)

Section invariant.

Implicit Types (w : WatchWindow) (it : QListWidgetItem).

Lemma StronglySorted_sublist {A} (R : relation A) (l k : list A) :
  k `sublist_of` l -> StronglySorted R l -> StronglySorted R k.
Proof.
  induction 1 as [|x k l Hs IH|x k l Hs IH]; intros Hl.
  - constructor.
  - apply StronglySorted_inv in Hl as [Hl Hx]. constructor; [by apply IH|].
    apply Forall_forall. intros y Hy. rewrite Forall_forall in Hx.
    apply Hx. by eapply sublist_subseteq.
  - apply StronglySorted_inv in Hl as [Hl _]. by apply IH.
Qed.

Lemma Forall_sublist {A} (P : A -> Prop) (l k : list A) :
  k `sublist_of` l -> Forall P l -> Forall P k.
Proof.
  intros Hs Hl. apply Forall_forall. intros x Hx.
  rewrite Forall_forall in Hl. apply Hl. by eapply sublist_subseteq.
Qed.

Lemma new_reminder_ok (id : nat) (text : pystr) :
  text <> [] -> trimmed text -> item_ok (new_reminder id text).
Proof. intros Hne Ht. by split. Qed.

Lemma toggle_fields it :
  item_id (toggle it) = item_id it /\
  item_text (toggle it) = item_text it /\
  item_flags (toggle it) = item_flags it.
Proof.
  unfold toggle. destruct (toggle_allowed it); [|done].
  by destruct (item_checkState it).
Qed.

Lemma toggle_ok it : item_ok it -> item_ok (toggle it).
Proof.
  intros [H1 H2 H3 H4 H5 H6 H7].
  destruct (toggle_fields it) as (_ & Ht & Hf).
  split; rewrite ?Ht, ?Hf; try done.
  unfold toggle. destruct (toggle_allowed it); [|done].
  destruct (item_checkState it); [by eexists|done].
Qed.

Lemma init_inv names now : window_inv (WatchWindow_init names now).
Proof. split; simpl; try done; constructor. Qed.

Lemma add_reminder_inv w : window_inv w -> window_inv (add_reminder w).
Proof.
  intros [Hi Ho Hf Hm Ht].
  destruct (decide (strip (rem_input w) = [])) as [He|Hne].
  { unfold add_reminder; rewrite He; simpl. by split. }
  rewrite add_reminder_accepts by done. split; simpl; try done.
  - apply Forall_app. split; [done|]. constructor; [|done].
    apply new_reminder_ok; [done|apply strip_trimmed].
  - rewrite fmap_app. apply StronglySorted_app_2; [|done|].
    + intros x y Hx Hy. simpl in Hy. apply list_elem_of_singleton in Hy as ->.
      apply list_elem_of_fmap in Hx as (it & -> & Hit).
      rewrite Forall_forall in Hf. by apply Hf.
    + simpl. repeat constructor.
  - apply Forall_app. split.
    + eapply Forall_impl; [exact Hf|]. simpl. lia.
    + constructor; [simpl; lia|done].
Qed.

Lemma toggle_check_inv r w : window_inv w -> window_inv (toggle_check r w).
Proof.
  intros [Hi Ho Hf Hm Ht]. split; simpl; try done.
  - apply Forall_alter; [done|]. intros it _. apply toggle_ok.
  - rewrite (list_fmap_alter item_id toggle id)
      by (apply Forall_forall; intros it _; apply toggle_fields).
    by rewrite list_alter_id.
  - apply Forall_alter; [done|]. intros it _.
    destruct (toggle_fields it) as (-> & _). done.
Qed.

Lemma delete_selected_inv selected w :
  window_inv w -> window_inv (delete_selected selected w).
Proof.
  intros [Hi Ho Hf Hm Ht].
  pose proof (delete_selected_sublist selected w) as Hs.
  rewrite delete_selected_frame. split; simpl; try done.
  - by eapply Forall_sublist.
  - eapply StronglySorted_sublist; [|exact Ho]. by apply fmap_sublist.
  - by eapply Forall_sublist.
Qed.

Lemma handle_inv names w e : window_inv w -> window_inv (handle names w e).
Proof.
  destruct e; simpl.
  - intros []. by split.
  - apply add_reminder_inv.
  - apply toggle_check_inv.
  - apply delete_selected_inv.
  - intros []. by split.
Qed.

Lemma run_inv names w es : window_inv w -> window_inv (run names w es).
Proof.
  revert w. induction es as [|e es IH]; intros w Hw; [done|].
  apply IH. by apply handle_inv.
Qed.

Lemma reachable_inv w : reachable w -> window_inv w.
Proof.
  intros (names & now & es & ->). apply run_inv, init_inv.
Qed.

Lemma StronglySorted_lt_NoDup (l : list nat) :
  StronglySorted lt l -> NoDup l.
Proof.
  induction 1 as [|x l _ IH Hx]; constructor; [|done].
  intros Hin. rewrite Forall_forall in Hx. specialize (Hx x Hin). lia.
Qed.

(** No object sits in the list twice. *)
Lemma reachable_NoDup w : reachable w -> NoDup (item_id <$> rem_list w).
Proof.
  intros Hw. apply StronglySorted_lt_NoDup. by destruct (reachable_inv w Hw).
Qed.

End invariant.

Lemma demo_reachable : reachable demo_window.
Proof. do 3 eexists. reflexivity. Qed.

(** C5. In every state the window reaches, whatever was typed, added,
    checked, deleted or ticked, each reminder's text is non-empty, holds
    a character that is not white space, and has no white space at
    either end; and the rows are in the order of their insertion (the
    identities, numbered as the items are created, increase down the
    list and stay below the next identity to hand out). *)
Theorem reachable_texts_trimmed_in_insertion_order (w : WatchWindow) :
  reachable w ->
  Forall (fun it =>
            item_text it <> [] /\
            (exists c, (c ∈ item_text it) /\ isspace c = false) /\
            trimmed (item_text it)) (rem_list w) /\
  StronglySorted lt (item_id <$> rem_list w) /\
  Forall (fun it => (item_id it < next_id w)%nat) (rem_list w).
Proof.
  intros [Hi Ho Hf _ _]%reachable_inv. split; [|by split].
  eapply Forall_impl; [exact Hi|]. intros it [Hne Ht _ _ _ _ _].
  split; [done|]. split; [|done]. by apply trimmed_has_ink.
Qed.

Lemma reachable_texts_trimmed_in_insertion_order_witness :
  item_text <$> rem_list demo_window = [lit "Buy milk"; lit "Call mom"]
  /\ StronglySorted lt (item_id <$> rem_list demo_window).
Proof.
  split; [reflexivity|].
  exact (proj1 (proj2
    (reachable_texts_trimmed_in_insertion_order demo_window demo_reachable))).
Defined.

(** C10. The item [add_reminder] builds is user-checkable, enabled and
    selectable and starts unchecked; in every state the window reaches
    every entry still has the three flags, so a click on its check box
    is honoured and changes its check state, and it may be selected. *)
Theorem entries_stay_checkable_and_selectable (w : WatchWindow) :
  reachable w ->
  (forall id text,
      let it := new_reminder id text in
      has_flag (item_flags it) Qt.ItemIsUserCheckable = true /\
      has_flag (item_flags it) Qt.ItemIsEnabled = true /\
      has_flag (item_flags it) Qt.ItemIsSelectable = true /\
      item_checkState it = Some Qt.Unchecked) /\
  Forall (fun it =>
            has_flag (item_flags it) Qt.ItemIsUserCheckable = true /\
            has_flag (item_flags it) Qt.ItemIsEnabled = true /\
            has_flag (item_flags it) Qt.ItemIsSelectable = true /\
            toggle_allowed it = true /\
            item_checkState (toggle it) <> item_checkState it /\
            selection_allowed it = true) (rem_list w).
Proof.
  intros [Hi _ _ _ _]%reachable_inv. split; [done|].
  eapply Forall_impl; [exact Hi|].
  intros it [_ _ Hc He Hs Hb [s Hst]].
  assert (Hta : toggle_allowed it = true).
  { unfold toggle_allowed. by rewrite Hc, He, Hst. }
  repeat split; try done.
  - unfold toggle. rewrite Hta, Hst, Hb. simpl.
    by destruct s.
  - unfold selection_allowed. by rewrite Hs, He.
Qed.

Lemma entries_stay_checkable_and_selectable_witness :
  Forall (fun it => toggle_allowed it = true /\ selection_allowed it = true)
    (rem_list demo_window)
  /\ item_checkState <$> rem_list demo_window
     = [Some Qt.Checked; Some Qt.Unchecked].
Proof.
  split; [|reflexivity].
  destruct (entries_stay_checkable_and_selectable demo_window demo_reachable)
    as [_ H].
  eapply Forall_impl; [exact H|]. intros it (_ & _ & _ & Ht & _ & Hs).
  by split.
Defined.

(** ** The clock *)

Section clock.

Variable names : LocaleNames.

Lemma time_label_eq now w :
  time_label (update_clock names now w)
  = pad2 (tm_hour now) ++ [colon] ++ pad2 (tm_min now) ++ [colon]
      ++ pad2 (tm_sec now).
Proof. reflexivity. Qed.

Lemma date_label_eq now w :
  date_label (update_clock names now w)
  = day_name names (tm_wday now) ++ lit ", " ++ pad2 (tm_mday now)
      ++ lit " " ++ month_name names (tm_mon now) ++ lit " "
      ++ decimal (tm_year now).
Proof.
  unfold update_clock, date_format. simpl.
  by rewrite app_nil_r.
Qed.

Lemma is_digit_digit (d : Z) : 0 <= d <= 9 -> is_digit (digit d) = true.
Proof.
  intros Hd. unfold is_digit, digit.
  apply andb_true_iff. split; apply N.leb_le; lia.
Qed.

Lemma digit_value (d : Z) : 0 <= d -> Z.of_N (digit d) - 48 = d.
Proof. intros Hd. unfold digit. lia. Qed.

(** Two digits, and they denote the number. *)
Lemma pad2_spec (n : Z) :
  0 <= n <= 99 ->
  length (pad2 n) = 2%nat /\ Forall (fun c => is_digit c = true) (pad2 n)
  /\ number_of (pad2 n) = n.
Proof.
  intros Hn.
  assert (0 <= n / 10 mod 10 <= 9 /\ 0 <= n mod 10 <= 9
          /\ n = 10 * (n / 10 mod 10) + n mod 10) as (H1 & H2 & H3)
    by (Z.div_mod_to_equations; lia).
  split; [done|]. split.
  - unfold pad2. repeat constructor; by apply is_digit_digit.
  - unfold number_of, pad2. simpl. rewrite !digit_value; lia.
Qed.

Lemma decimal_four (y : Z) :
  1000 <= y <= 9999 ->
  decimal y = [digit (y / 1000); digit (y / 100 mod 10);
               digit (y / 10 mod 10); digit (y mod 10)].
Proof.
  intros Hy. unfold decimal.
  assert (Hlog : 9 <= Z.log2 y).
  { change 9 with (Z.log2 1000). apply Z.log2_le_mono. lia. }
  destruct (Z.to_nat (Z.log2 y)) as [|[|[|n]]] eqn:Hn; try lia.
  assert (y / 10 / 10 / 10 = y / 1000 /\ y / 10 / 10 mod 10 = y / 100 mod 10
          /\ 1 <= y / 1000 <= 9 /\ 100 <= y / 10 /\ 10 <= y / 10 / 10)
    as (E1 & E2 & B1 & B2 & B3)
    by (Z.div_mod_to_equations; lia).
  simpl decimal_go.
  replace (y <? 10) with false by (symmetry; apply Z.ltb_ge; lia).
  replace (y / 10 <? 10) with false by (symmetry; apply Z.ltb_ge; lia).
  replace (y / 10 / 10 <? 10) with false by (symmetry; apply Z.ltb_ge; lia).
  replace (y / 10 / 10 / 10 <? 10) with true by (symmetry; apply Z.ltb_lt; lia).
  by rewrite E1, E2.
Qed.

(** Four digits, and they denote the year. *)
Lemma decimal_year_spec (y : Z) :
  1000 <= y <= 9999 ->
  length (decimal y) = 4%nat /\ Forall (fun c => is_digit c = true) (decimal y)
  /\ number_of (decimal y) = y.
Proof.
  intros Hy. rewrite decimal_four by done.
  assert (1 <= y / 1000 <= 9 /\ 0 <= y / 100 mod 10 <= 9
          /\ 0 <= y / 10 mod 10 <= 9 /\ 0 <= y mod 10 <= 9
          /\ y = 1000 * (y / 1000) + 100 * (y / 100 mod 10)
                 + 10 * (y / 10 mod 10) + y mod 10)
    as (H1 & H2 & H3 & H4 & H5)
    by (Z.div_mod_to_equations; lia).
  split; [done|]. split.
  - repeat constructor; apply is_digit_digit; lia.
  - unfold number_of. simpl. rewrite !digit_value; lia.
Qed.

End clock.

Lemma pad2_HHMMSS (h m s : Z) :
  0 <= h <= 99 -> 0 <= m <= 99 -> 0 <= s <= 99 ->
  is_HHMMSS (pad2 h ++ [colon] ++ pad2 m ++ [colon] ++ pad2 s) = true.
Proof.
  intros Hh Hm Hs. unfold pad2. simpl.
  rewrite !is_digit_digit by (Z.div_mod_to_equations; lia).
  reflexivity.
Qed.

(** C7. A tick writes the hour, minute and second of the current local
    time as three zero-padded two-digit numbers joined by colons, hours
    running from 00 to 23, into the time label; and into the date label
    the locale's full weekday name, a comma and a space, the two-digit
    day of the month, the locale's full month name and the four-digit
    year, separated by single spaces, in that order. *)
Theorem update_clock_formats (names : LocaleNames) (now : struct_time)
    (w : WatchWindow) :
  valid_time now ->
  let w' := update_clock names now w in
  time_label w'
  = pad2 (tm_hour now) ++ [colon] ++ pad2 (tm_min now) ++ [colon]
      ++ pad2 (tm_sec now) /\
  is_HHMMSS (time_label w') = true /\
  number_of (pad2 (tm_hour now)) = tm_hour now /\
  number_of (pad2 (tm_min now)) = tm_min now /\
  number_of (pad2 (tm_sec now)) = tm_sec now /\
  date_label w'
  = day_name names (tm_wday now) ++ lit ", " ++ pad2 (tm_mday now)
      ++ lit " " ++ month_name names (tm_mon now) ++ lit " "
      ++ decimal (tm_year now) /\
  Forall (fun c => is_digit c = true) (pad2 (tm_mday now)) /\
  number_of (pad2 (tm_mday now)) = tm_mday now /\
  length (decimal (tm_year now)) = 4%nat /\
  Forall (fun c => is_digit c = true) (decimal (tm_year now)) /\
  number_of (decimal (tm_year now)) = tm_year now.
Proof.
  intros (Hy & _ & Hd & Hh & Hm & Hs & _) w'.
  destruct (pad2_spec (tm_hour now)) as (_ & Fh & Nh); [lia|].
  destruct (pad2_spec (tm_min now)) as (_ & Fm & Nm); [lia|].
  destruct (pad2_spec (tm_sec now)) as (_ & Fs & Ns); [lia|].
  destruct (pad2_spec (tm_mday now)) as (_ & Fd & Nd); [lia|].
  destruct (decimal_year_spec (tm_year now) Hy) as (Ly & Fy & Ny).
  split; [apply time_label_eq|]. split.
  { subst w'. rewrite time_label_eq. apply pad2_HHMMSS; lia. }
  repeat split; try done. apply date_label_eq.
Qed.

Lemma update_clock_formats_witness :
  time_label (update_clock demo_names demo_time demo_window) = lit "09:03:07"
  /\ date_label (update_clock demo_names demo_time demo_window)
     = lit "Thursday, 05 June 2025".
Proof.
  assert (Hv : valid_time demo_time) by (unfold valid_time; simpl; lia).
  destruct (update_clock_formats demo_names demo_time demo_window Hv)
    as (Ht & _ & _ & _ & _ & Hd & _).
  split; [rewrite Ht|rewrite Hd]; reflexivity.
Defined.

Lemma ticks_only_set_labels names (nows : list struct_time) (w : WatchWindow) :
  exists tl dl, run names w (Tick <$> nows) = set_labels tl dl w.
Proof.
  revert w. induction nows as [|now nows IH]; intros w.
  - exists (time_label w), (date_label w). by destruct w.
  - destruct (IH (update_clock names now w)) as (tl & dl & Hr).
    exists tl, dl. rewrite fmap_cons. unfold run in *. cbn [foldl handle].
    rewrite Hr. reflexivity.
Qed.

(** C8. A tick overwrites the two clock labels and nothing else: the
    rows of the reminders list (their number, order, texts, flags and
    check states), the input line, the list's selection mode and the
    timer are what they were; and so after any number of ticks. *)
Theorem update_clock_frame (names : LocaleNames) (w : WatchWindow) :
  (forall now,
      let w' := update_clock names now w in
      rem_list w' = rem_list w /\ rem_input w' = rem_input w /\
      w' = set_labels (time_label w') (date_label w') w) /\
  (forall nows,
      let w' := run names w (Tick <$> nows) in
      rem_list w' = rem_list w /\ rem_input w' = rem_input w /\
      w' = set_labels (time_label w') (date_label w') w).
Proof.
  split.
  - intros now. by repeat split.
  - intros nows. destruct (ticks_only_set_labels names nows w) as (tl & dl & ->).
    by repeat split.
Qed.

(** The refresh timer: [__init__] starts it with a period of 1000 ms,
    not single-shot, and calls [update_clock] once itself, so the labels
    are filled in before the window is shown; nothing stops or re-arms
    the timer later. *)
Lemma init_clock_running names now :
  let w := WatchWindow_init names now in
  timer w = mkTimer 1000 true false /\
  time_label w = strftime_at names time_format now /\
  date_label w = strftime_at names date_format now.
Proof. done. Qed.

Lemma reachable_timer w : reachable w -> timer w = mkTimer 1000 true false.
Proof. by intros []%reachable_inv. Qed.

(** ** Locale set-up *)

Lemma locale_loop_spec (p : Platform) (cands : list string) (s : LocaleState) :
  locale_loop p cands s
  = match first_accepted p cands with
    | Some (i, loc) =>
        ({| lc_time := Some loc;
            setlocale_calls := setlocale_calls s ++ take (S i) cands |},
         Normal tt)
    | None =>
        ({| lc_time := lc_time s;
            setlocale_calls := setlocale_calls s ++ cands |}, Normal tt)
    end.
Proof.
  unfold first_accepted. revert s.
  induction cands as [|loc cands IH]; intros s.
  - simpl. rewrite app_nil_r. by destruct s.
  - cbn [locale_loop list_find]. unfold setlocale.
    destruct (decide (p loc = None)) as [Hp|Hp].
    + rewrite Hp. reflexivity.
    + destruct (p loc) as [e|] eqn:Hpl; [|done].
      rewrite IH. simpl.
      destruct (list_find _ cands) as [[i l]|]; simpl;
        by rewrite <- app_assoc.
Qed.

(** C6. Loading the module tries the two locale identifiers in order.
    Whatever the platform does with them (accept, or raise any
    exception), the loop ends normally: the first identifier accepted
    becomes the [LC_TIME] locale and nothing after it is tried; if none
    is accepted both were tried and the locale is still the platform
    default. *)
Theorem module_init_best_effort (p : Platform) :
  snd (module_init p) = Normal tt /\
  fst (module_init p)
  = match p "pt_BR.UTF-8"%string, p "Portuguese_Brazil.1252"%string with
    | None, _ =>
        {| lc_time := Some "pt_BR.UTF-8"%string;
           setlocale_calls := ["pt_BR.UTF-8"%string] |}
    | Some _, None =>
        {| lc_time := Some "Portuguese_Brazil.1252"%string;
           setlocale_calls := locale_candidates |}
    | Some _, Some _ =>
        {| lc_time := None; setlocale_calls := locale_candidates |}
    end /\
  match first_accepted p locale_candidates with
  | Some (i, loc) =>
      p loc = None /\ locale_candidates !! i = Some loc /\
      (forall j l, (j < i)%nat -> locale_candidates !! j = Some l ->
                   p l <> None) /\
      lc_time (fst (module_init p)) = Some loc /\
      setlocale_calls (fst (module_init p)) = take (S i) locale_candidates
  | None =>
      (forall l, l ∈ locale_candidates -> p l <> None) /\
      lc_time (fst (module_init p)) = None /\
      setlocale_calls (fst (module_init p)) = locale_candidates
  end.
Proof.
  unfold module_init. rewrite locale_loop_spec. split; [|split].
  - by destruct (first_accepted _ _) as [[i l]|].
  - unfold first_accepted, locale_candidates. cbn [list_find].
    destruct (decide (p "pt_BR.UTF-8"%string = None)) as [H1|H1].
    { by rewrite H1. }
    destruct (p "pt_BR.UTF-8"%string) eqn:E1; [|done].
    destruct (decide (p "Portuguese_Brazil.1252"%string = None)) as [H2|H2].
    { by rewrite H2. }
    by destruct (p "Portuguese_Brazil.1252"%string) eqn:E2.
  - destruct (first_accepted p locale_candidates) as [[i l]|] eqn:Hf;
      unfold first_accepted in Hf.
    + apply list_find_Some in Hf as (Hi & Hp & Hbefore).
      repeat split; try done.
      intros j l' Hj Hl'. by eapply Hbefore.
    + split; [|done]. intros l Hl.
      rewrite list_find_None, Forall_forall in Hf. by apply Hf.
Qed.

(** ** Selecting rows *)

Lemma click_single_length (sel : list nat) (c : click) :
  (length sel <= 1)%nat -> (length (click_single sel c) <= 1)%nat.
Proof.
  intros Hsel. unfold click_single, selectionCommand_single.
  destruct (click_ctrl c && _); simpl; [|lia].
  etrans; [apply length_filter|done].
Qed.

Lemma clicks_single_length (clicks : list click) (sel : list nat) :
  (length sel <= 1)%nat -> (length (foldl click_single sel clicks) <= 1)%nat.
Proof.
  revert sel. induction clicks as [|c clicks IH]; intros sel Hsel; [done|].
  simpl. by apply IH, click_single_length.
Qed.

(** C3 (what the code does). The list is built with the toolkit's
    default selection mode and no handler changes it, so in every state
    the window reaches it is in single-selection mode; in that mode no
    sequence of clicks, with or without Ctrl or Shift, leaves more than
    one row selected. *)
Theorem selection_never_exceeds_one (w : WatchWindow) (clicks : list click) :
  reachable w ->
  rem_selectionMode w = Qt.SingleSelection /\
  (length (foldl click_single [] clicks) <= 1)%nat.
Proof.
  intros [_ _ _ Hm _]%reachable_inv. split; [done|].
  apply clicks_single_length. simpl. lia.
Qed.

Lemma selection_never_exceeds_one_witness :
  rem_selectionMode demo_window = Qt.SingleSelection
  /\ foldl click_single [] [mkClick 0 false false; mkClick 1 true false]
     = [1%nat]
  /\ foldl click_single [] [mkClick 0 false false; mkClick 1 false true]
     = [1%nat].
Proof.
  destruct (selection_never_exceeds_one demo_window
              [mkClick 0 false false; mkClick 1 true false] demo_reachable)
    as [Hm _].
  split; [exact Hm|]. split; reflexivity.
Defined.

(** ** More on adding reminders *)

(** X1. Pressing Add a second time without typing adds nothing more: the
    first press either ignored a blank input or emptied the input line,
    so the second finds nothing to add. *)
Theorem add_reminder_twice (w : WatchWindow) :
  add_reminder (add_reminder w) = add_reminder w.
Proof.
  destruct (decide (strip (rem_input w) = [])) as [He|Hne].
  - unfold add_reminder. rewrite He. simpl. by rewrite He.
  - rewrite (add_reminder_accepts w Hne). reflexivity.
Qed.

(** X2. The stored text is the input with white space taken off both ends
    and nothing else: what was cut off is white space only, and the
    characters in between, inner spaces included, are kept as typed. *)
Theorem add_reminder_keeps_interior (w : WatchWindow) :
  strip (rem_input w) <> [] ->
  exists it ws1 ws2,
    last (rem_list (add_reminder w)) = Some it /\
    rem_input w = ws1 ++ item_text it ++ ws2 /\
    Forall (fun c => isspace c = true) ws1 /\
    Forall (fun c => isspace c = true) ws2.
Proof.
  intros Hne. rewrite (add_reminder_accepts w Hne). simpl.
  destruct (lstrip_split (rem_input w)) as (ws1 & H1 & F1).
  destruct (rstrip_split (lstrip (rem_input w))) as (ws2 & H2 & F2).
  exists (new_reminder (next_id w) (strip (rem_input w))), ws1, ws2.
  split; [apply last_snoc|]. split; [|by split].
  simpl. unfold strip. by rewrite <- H2.
Qed.

Lemma add_reminder_keeps_interior_witness :
  exists ws1 ws2,
    lit "  Buy  milk " = ws1 ++ lit "Buy  milk" ++ ws2 /\
    Forall (fun c => isspace c = true) ws1 /\
    Forall (fun c => isspace c = true) ws2.
Proof.
  assert (Hne : strip (rem_input (set_rem_input (lit "  Buy  milk ")
                                    demo_window)) <> [])
    by (vm_compute; discriminate).
  destruct (add_reminder_keeps_interior _ Hne)
    as (it & ws1 & ws2 & Hl & Hs & F1 & F2).
  exists ws1, ws2. split; [|by split].
  vm_compute in Hl. injection Hl as <-. exact Hs.
Defined.

Lemma run_app names w (es1 es2 : list event) :
  run names w (es1 ++ es2) = run names (run names w es1) es2.
Proof. apply foldl_app. Qed.

(** X3. Typing a series of strings and pressing Add after each appends, in
    the order typed, the trimmed form of every string that is not blank;
    blank ones are skipped and equal texts are not merged. *)
Theorem type_and_add_texts (names : LocaleNames) (w : WatchWindow)
    (ss : list pystr) :
  item_text <$> rem_list (run names w (type_and_add ss))
  = (item_text <$> rem_list w) ++ filter (fun t => t <> []) (strip <$> ss).
Proof.
  revert w. induction ss as [|s ss IH]; intros w.
  - simpl. by rewrite app_nil_r.
  - unfold type_and_add. rewrite bind_cons, run_app. fold (type_and_add ss).
    rewrite IH. rewrite fmap_cons.
    change (run names w [Typed s; AddReminder])
      with (add_reminder (set_rem_input s w)).
    destruct (decide (strip s <> [])) as [Hne|He].
    + rewrite filter_cons_True by done.
      rewrite add_reminder_accepts by done. simpl.
      by rewrite fmap_app, <- app_assoc.
    + rewrite filter_cons_False by done. apply dec_stable in He.
      unfold add_reminder. simpl. by rewrite He.
Qed.

(** X4. Adding a reminder and then deleting the row it was put in gives
    back the list as it was before. *)
Theorem add_then_delete_restores (w : WatchWindow) :
  reachable w ->
  strip (rem_input w) <> [] ->
  let w1 := add_reminder w in
  rem_list (delete_selected
              (items_at (rem_list w1) [length (rem_list w)]) w1)
  = rem_list w.
Proof.
  intros Hw Hne w1.
  assert (Hinv1 : window_inv w1) by (apply add_reminder_inv, reachable_inv, Hw).
  destruct (reachable_inv w Hw) as [_ _ Hf _ _].
  rewrite delete_selected_filter
    by (apply StronglySorted_lt_NoDup; by destruct Hinv1).
  subst w1. rewrite (add_reminder_accepts w Hne). simpl.
  unfold items_at. simpl. rewrite list_lookup_middle by done. simpl.
  rewrite filter_app, filter_cons_False, filter_nil, app_nil_r.
  - apply filter_keeps_all. eapply Forall_impl; [exact Hf|].
    intros it Hit Hin. apply list_elem_of_singleton in Hin. simpl in Hit. lia.
  - intros Hnot. apply Hnot. by left.
Qed.

Lemma add_then_delete_restores_witness :
  let w := set_rem_input (lit "Water plants") demo_window in
  rem_list (delete_selected
              (items_at (rem_list (add_reminder w)) [2%nat]) (add_reminder w))
  = rem_list demo_window.
Proof.
  intros w.
  assert (Hw : reachable w).
  { exists demo_names, demo_time. eexists (_ ++ [Typed (lit "Water plants")]).
    unfold demo_window, w. by rewrite run_app. }
  assert (Hne : strip (rem_input w) <> []) by (vm_compute; discriminate).
  exact (add_then_delete_restores w Hw Hne).
Defined.

Section provenance.

Variable names : LocaleNames.

Lemma typed_app (es1 es2 : list event) :
  typed (es1 ++ es2) = typed es1 ++ typed es2.
Proof. apply omap_app. Qed.

Lemma add_presses_app (es1 es2 : list event) :
  add_presses (es1 ++ es2) = (add_presses es1 + add_presses es2)%nat.
Proof. unfold add_presses. by rewrite filter_app, length_app. Qed.

Lemma provenance_step (es : list event) (e : event) (w : WatchWindow) :
  Forall (fun it => exists s, (s ∈ typed es) /\ item_text it = strip s)
    (rem_list w) ->
  (length (rem_list w) <= add_presses es)%nat ->
  (rem_input w = [] \/ rem_input w ∈ typed es) ->
  let w' := handle names w e in
  Forall (fun it => exists s, (s ∈ typed (es ++ [e])) /\ item_text it = strip s)
    (rem_list w') /\
  (length (rem_list w') <= add_presses (es ++ [e]))%nat /\
  (rem_input w' = [] \/ rem_input w' ∈ typed (es ++ [e])).
Proof.
  intros Hf Hl Hi w'. rewrite typed_app, add_presses_app.
  assert (Hf' : Forall (fun it => exists s, (s ∈ typed es ++ typed [e])
                                            /\ item_text it = strip s)
                  (rem_list w)).
  { eapply Forall_impl; [exact Hf|]. intros it (s & Hs & Ht).
    exists s. split; [|done]. apply elem_of_app. by left. }
  assert (Hi' : rem_input w = [] \/ rem_input w ∈ typed es ++ typed [e]).
  { destruct Hi as [Hi|Hi]; [by left|right]. apply elem_of_app. by left. }
  destruct e as [s| |r|sel|now]; subst w'; cbn [handle].
  - simpl rem_list. simpl rem_input. split; [done|]. split; [lia|].
    right. apply elem_of_app. right. by left.
  - destruct (decide (strip (rem_input w) = [])) as [He|Hne].
    { unfold add_reminder. rewrite He. simpl. split; [done|]. split; [lia|done]. }
    rewrite add_reminder_accepts by done. simpl.
    split; [|split; [|by left]].
    + apply Forall_app. split; [done|]. constructor; [|done].
      destruct Hi' as [Hi'|Hi']; [by rewrite Hi' in Hne|].
      by exists (rem_input w).
    + rewrite length_app. simpl. unfold add_presses at 2. simpl. lia.
  - simpl. split; [|split; [|done]].
    + apply Forall_alter; [done|]. intros it _ (s & Hs & Ht).
      exists s. split; [done|]. by destruct (toggle_fields it) as (_ & -> & _).
    + rewrite length_alter. lia.
  - pose proof (delete_selected_sublist (items_at (rem_list w) sel) w) as Hs.
    rewrite delete_selected_frame. simpl. split; [|split; [|done]].
    + by eapply Forall_sublist.
    + apply sublist_length in Hs. lia.
  - simpl. split; [done|]. split; [lia|done].
Qed.

End provenance.

(** X5. Whatever the user does, the list holds only what was typed and
    added: every text in it is the trimmed form of a string typed
    earlier, and there are never more entries than presses of Add. *)
Theorem entries_come_from_typing (names : LocaleNames) (now : struct_time)
    (es : list event) :
  let w := run names (WatchWindow_init names now) es in
  Forall (fun it => exists s, (s ∈ typed es) /\ item_text it = strip s)
    (rem_list w) /\
  (length (rem_list w) <= add_presses es)%nat.
Proof.
  cut (let w := run names (WatchWindow_init names now) es in
       Forall (fun it => exists s, (s ∈ typed es) /\ item_text it = strip s)
         (rem_list w) /\
       (length (rem_list w) <= add_presses es)%nat /\
       (rem_input w = [] \/ rem_input w ∈ typed es)).
  { intros H w. destruct H as (H1 & H2 & _). by split. }
  induction es as [|e es IH] using rev_ind.
  - simpl. split; [constructor|]. split; [done|by left].
  - intros w. subst w. rewrite run_app.
    destruct IH as (H1 & H2 & H3).
    exact (provenance_step names es e _ H1 H2 H3).
Qed.

(** ** More on deleting *)

(** X6. Which rows go depends only on which objects [selectedItems()]
    returned, not on the order it listed them in nor on repetitions. *)
Theorem delete_selected_order_irrelevant (w : WatchWindow)
    (selected selected' : list QListWidgetItem) :
  NoDup (item_id <$> rem_list w) ->
  (forall i, (i ∈ item_id <$> selected) <-> (i ∈ item_id <$> selected')) ->
  delete_selected selected w = delete_selected selected' w.
Proof.
  intros Hnd Hsame.
  rewrite (delete_selected_frame selected), (delete_selected_frame selected').
  f_equal. rewrite !delete_selected_filter by done.
  apply list_filter_iff. intros x. by rewrite Hsame.
Qed.

Lemma delete_selected_order_irrelevant_witness :
  delete_selected (items_at (rem_list demo_window) [1; 0]%nat) demo_window
  = delete_selected (items_at (rem_list demo_window) [0; 1; 0]%nat)
      demo_window.
Proof.
  apply delete_selected_order_irrelevant.
  - apply (bool_decide_unpack _). vm_compute. reflexivity.
  - intros i.
    change (item_id <$> items_at (rem_list demo_window) [1; 0]%nat)
      with [1; 0]%nat.
    change (item_id <$> items_at (rem_list demo_window) [0; 1; 0]%nat)
      with [0; 1; 0]%nat.
    rewrite !elem_of_cons. tauto.
Defined.

(** X7. Objects the list does not hold are skipped: [row] answers [-1] for
    them and [takeItem(-1)] removes nothing, so the window is left as
    it was. *)
Theorem delete_selected_absent_noop (w : WatchWindow)
    (selected : list QListWidgetItem) :
  (forall it, it ∈ selected -> item_id it ∉ item_id <$> rem_list w) ->
  delete_selected selected w = w.
Proof.
  induction selected as [|it selected IH]; intros Habs; [done|].
  rewrite delete_selected_cons.
  assert (Hrow : row (rem_list w) it = -1).
  { unfold row.
    destruct (list_find _ (rem_list w)) as [[i x]|] eqn:Hf; [|done].
    apply list_find_Some in Hf as (Hi & Hx & _).
    exfalso. apply (Habs it); [by left|].
    apply list_elem_of_fmap. exists x. split; [done|].
    by eapply list_elem_of_lookup_2. }
  rewrite Hrow.
  assert (Hw : set_rem_list (takeItem (rem_list w) (-1)) w = w)
    by (by destruct w).
  rewrite Hw. apply IH. intros it' Hit'. apply Habs. by right.
Qed.

Lemma delete_selected_absent_noop_witness :
  delete_selected [mkItem 7 (lit "Buy milk") 53 (Some Qt.Checked)] demo_window
  = demo_window.
Proof.
  apply delete_selected_absent_noop.
  intros it ->%list_elem_of_singleton.
  change (item_id <$> rem_list demo_window) with [0; 1]%nat. simpl.
  rewrite !elem_of_cons, elem_of_nil. lia.
Defined.

Section survivors_length.

Lemma fst_filter_imap {A} (P : nat -> Prop) `{!forall i, Decision (P i)}
    (f : nat -> nat) (l : list A) :
  (filter (fun p => P p.1) (imap (fun i x => (f i, x)) l)).*1
  = filter P (f <$> seq 0 (length l)).
Proof.
  revert f. induction l as [|x l IH]; intros f; [done|].
  rewrite imap_cons. cbn [length seq]. rewrite fmap_cons.
  rewrite (filter_cons P), (filter_cons (fun p => P p.1)). simpl.
  specialize (IH (f ∘ S)). rewrite <- fmap_S_seq, <- list_fmap_compose.
  destruct (decide (P (f 0%nat))); [rewrite fmap_cons; simpl; f_equal|];
    exact IH.
Qed.

Lemma survivors_length (sel : list nat) (rows : list QListWidgetItem) :
  NoDup sel ->
  Forall (fun i => (i < length rows)%nat) sel ->
  (length (survivors sel rows) + length sel = length rows)%nat.
Proof.
  intros Hnd Hin. unfold survivors.
  rewrite length_fmap.
  assert (length (filter (fun p : nat * QListWidgetItem => p.1 ∉ sel)
                    (imap pair rows))
          = length (filter (fun i => i ∉ sel) (seq 0 (length rows)))) as ->.
  { pose proof (fst_filter_imap (fun i => i ∉ sel) id rows) as E.
    rewrite list_fmap_id in E. rewrite <- E, length_fmap. reflexivity. }
  assert (Hsel : filter (fun i => ¬ (i ∉ sel)) (seq 0 (length rows)) ≡ₚ sel).
  { apply NoDup_Permutation; [apply NoDup_filter, NoDup_seq|done|].
    intros i. rewrite list_elem_of_filter, elem_of_seq. split.
    - intros [Hi _]. by apply dec_stable.
    - intros Hi. split; [tauto|]. rewrite Forall_forall in Hin.
      specialize (Hin i Hi). lia. }
  pose proof (filter_app_complement (fun i => i ∉ sel) (seq 0 (length rows)))
    as Hc.
  apply Permutation_length in Hc, Hsel.
  rewrite length_app, length_seq in Hc. lia.
Qed.

End survivors_length.

(** X8. Deleting [n] distinct selected rows makes the list exactly [n]
    entries shorter. *)
Theorem delete_selected_length (w : WatchWindow) (sel : list nat) :
  NoDup (item_id <$> rem_list w) ->
  NoDup sel ->
  Forall (fun i => (i < length (rem_list w))%nat) sel ->
  (length (rem_list (delete_selected (items_at (rem_list w) sel) w))
   + length sel = length (rem_list w))%nat.
Proof.
  intros Hids Hnd Hin.
  rewrite delete_selected_filter, filter_items_at by done.
  by apply survivors_length.
Qed.

Lemma delete_selected_length_witness :
  length (rem_list (delete_selected
                      (items_at (rem_list demo_window) [1; 0]%nat)
                      demo_window)) = 0%nat.
Proof.
  assert (Hids : NoDup (item_id <$> rem_list demo_window))
    by (apply (bool_decide_unpack _); vm_compute; reflexivity).
  assert (Hnd : NoDup [1; 0]%nat)
    by (apply (bool_decide_unpack _); vm_compute; reflexivity).
  assert (Hin : Forall (fun i => (i < length (rem_list demo_window))%nat)
                  [1; 0]%nat)
    by (repeat constructor).
  pose proof (delete_selected_length demo_window [1; 0]%nat Hids Hnd Hin) as H.
  simpl length in H at 2 3. lia.
Defined.

(** ** Ticks and the other events *)

Section ticks.

Variable names : LocaleNames.

Lemma delete_selected_set_labels tl dl selected w :
  delete_selected selected (set_labels tl dl w)
  = set_labels tl dl (delete_selected selected w).
Proof.
  revert w. induction selected as [|it selected IH]; intros w; [done|].
  rewrite !delete_selected_cons. rewrite <- IH. reflexivity.
Qed.

Lemma add_reminder_set_labels tl dl w :
  add_reminder (set_labels tl dl w) = set_labels tl dl (add_reminder w).
Proof.
  unfold add_reminder. simpl. by destruct (py_not (strip (rem_input w))).
Qed.

Lemma handle_set_labels tl dl w e :
  is_tick e = false ->
  handle names (set_labels tl dl w) e = set_labels tl dl (handle names w e).
Proof.
  destruct e; intros He; try done; simpl.
  - apply add_reminder_set_labels.
  - apply delete_selected_set_labels.
Qed.

Lemma run_set_labels tl dl w es :
  Forall (fun e => is_tick e = false) es ->
  run names (set_labels tl dl w) es = set_labels tl dl (run names w es).
Proof.
  intros Hes. revert w. induction Hes as [|e es He _ IH]; intros w; [done|].
  unfold run in *. simpl. rewrite handle_set_labels by done. apply IH.
Qed.

Lemma without_ticks_no_tick es :
  Forall (fun e => is_tick e = false) (without_ticks es).
Proof.
  apply Forall_forall. intros e He.
  by apply list_elem_of_filter in He as [He _].
Qed.

(** The events other than ticks leave the two clock labels alone. *)
Lemma handle_labels w e :
  is_tick e = false ->
  time_label (handle names w e) = time_label w /\
  date_label (handle names w e) = date_label w.
Proof.
  destruct e; intros He; try done; simpl.
  - unfold add_reminder. by destruct (py_not _).
  - by rewrite delete_selected_frame.
Qed.

End ticks.

(** X9. Timer ticks never get in the way of the reminders: wherever ticks
    fall among the user's actions, the window ends up as if they had not
    happened, except for what the two clock labels show. *)
Theorem ticks_do_not_interfere (names : LocaleNames) (w : WatchWindow)
    (es : list event) :
  exists tl dl,
    run names w es = set_labels tl dl (run names w (without_ticks es)).
Proof.
  revert w. induction es as [|e es IH]; intros w.
  - exists (time_label w), (date_label w). by destruct w.
  - destruct (is_tick e) eqn:He.
    + destruct e; try discriminate.
      destruct (IH (update_clock names now w)) as (tl & dl & Hr).
      exists tl, dl.
      assert (Hw : without_ticks (Tick now :: es) = without_ticks es)
        by (unfold without_ticks; by rewrite filter_cons_False).
      rewrite Hw.
      change (run names w (Tick now :: es))
        with (run names (update_clock names now w) es).
      rewrite Hr. unfold update_clock.
      rewrite run_set_labels by apply without_ticks_no_tick.
      reflexivity.
    + destruct (IH (handle names w e)) as (tl & dl & Hr).
      exists tl, dl.
      assert (Hw : without_ticks (e :: es) = e :: without_ticks es)
        by (unfold without_ticks; by rewrite filter_cons_True).
      rewrite Hw. exact Hr.
Qed.

Lemma readings_app (es1 es2 : list event) :
  readings (es1 ++ es2) = readings es1 ++ readings es2.
Proof. apply omap_app. Qed.

(** X10. The labels always show the latest clock reading: the one of the
    last tick, or the one taken when the window was built if no tick
    has come yet; typing, adding, checking and deleting do not disturb
    them. *)
Theorem labels_show_latest_reading (names : LocaleNames) (now : struct_time)
    (es : list event) :
  let w := run names (WatchWindow_init names now) es in
  time_label w = strftime_at names time_format (latest_reading now es) /\
  date_label w = strftime_at names date_format (latest_reading now es).
Proof.
  induction es as [|e es IH] using rev_ind; [done|].
  intros w. subst w. rewrite run_app. unfold latest_reading.
  rewrite readings_app, last_app.
  change (run names (run names (WatchWindow_init names now) es) [e])
    with (handle names (run names (WatchWindow_init names now) es) e).
  destruct (is_tick e) eqn:He.
  - destruct e; try discriminate. done.
  - destruct (handle_labels names
                (run names (WatchWindow_init names now) es) e He) as [-> ->].
    replace (readings [e]) with (@nil struct_time) by (by destruct e).
    exact IH.
Qed.

(** X11. The time shown can be read back: parsing the time label written
    by a tick gives the hour, minute and second of the clock reading. *)
Theorem time_label_round_trip (names : LocaleNames) (now : struct_time)
    (w : WatchWindow) :
  valid_time now ->
  parse_HHMMSS (time_label (update_clock names now w))
  = Some (tm_hour now, tm_min now, tm_sec now).
Proof.
  intros (_ & _ & _ & Hh & Hm & Hs & _).
  rewrite time_label_eq.
  pose proof (pad2_HHMMSS (tm_hour now) (tm_min now) (tm_sec now)) as Hok.
  destruct (pad2_spec (tm_hour now)) as (_ & _ & Nh); [lia|].
  destruct (pad2_spec (tm_min now)) as (_ & _ & Nm); [lia|].
  destruct (pad2_spec (tm_sec now)) as (_ & _ & Ns); [lia|].
  unfold pad2 in *. cbn [app] in *. unfold parse_HHMMSS.
  rewrite Hok by lia. by rewrite Nh, Nm, Ns.
Qed.

Lemma time_label_round_trip_witness :
  parse_HHMMSS (time_label (update_clock demo_names demo_time demo_window))
  = Some (9, 3, 7).
Proof.
  apply (time_label_round_trip demo_names demo_time demo_window).
  unfold valid_time. simpl. lia.
Defined.

(** X12. The refresh timer keeps running: no handler stops it, re-arms it or
    changes its period, so in every state the window reaches it is
    active, repeating, with the period of 1000 ms set in [__init__]. *)
Theorem timer_keeps_running (w : WatchWindow) :
  reachable w ->
  timer_active (timer w) = true /\
  timer_singleShot (timer w) = false /\
  timer_interval (timer w) = 1000.
Proof. intros [_ _ _ _ ->]%reachable_inv. done. Qed.

Lemma timer_keeps_running_witness :
  timer_active (timer demo_window) = true /\
  timer_singleShot (timer demo_window) = false /\
  timer_interval (timer demo_window) = 1000.
Proof. exact (timer_keeps_running demo_window demo_reachable). Defined.

(** ** Check boxes *)

Section check_boxes.

Implicit Types (w : WatchWindow) (it : QListWidgetItem).

Lemma toggle_flipped it : item_ok it -> toggle it = flipped it.
Proof.
  intros [_ _ Hc He _ Hb [s Hs]]. unfold toggle, toggle_allowed, flipped.
  rewrite Hc, He, Hs, Hb. simpl. by destruct s.
Qed.

Lemma flipped_two_state it : two_state (flipped it).
Proof.
  unfold two_state, flipped. simpl.
  destruct (item_checkState it) as [[]|]; auto.
Qed.

Lemma flipped_flipped it : two_state it -> flipped (flipped it) = it.
Proof. destruct it as [i t f c]. by intros [H|H]; simpl in H; subst c. Qed.

Lemma handle_two_state names w e :
  window_inv w ->
  Forall two_state (rem_list w) ->
  Forall two_state (rem_list (handle names w e)).
Proof.
  intros [Hi _ _ _ _] Ht. destruct e; simpl; try done.
  - unfold add_reminder. destruct (py_not _); [done|]. simpl.
    apply Forall_app. split; [done|]. constructor; [by left|done].
  - rewrite Forall_lookup in Hi.
    apply Forall_alter; [done|]. intros it Hit _.
    rewrite toggle_flipped by eauto. apply flipped_two_state.
  - eapply Forall_sublist; [apply delete_selected_sublist|done].
Qed.

Lemma reachable_two_state w : reachable w -> Forall two_state (rem_list w).
Proof.
  intros (names & now & es & ->).
  induction es as [|e es IH] using rev_ind; [constructor|].
  rewrite run_app. apply handle_two_state; [|done].
  apply run_inv, init_inv.
Qed.

End check_boxes.

(** X13. A click on the check box of a row flips that row between unchecked
    and checked and changes nothing else: the other rows, the order,
    the texts and the flags stay; a second click on the same box brings
    the window back to where it was. *)
Theorem toggle_check_flips_one_row (w : WatchWindow) (r : nat)
    (it : QListWidgetItem) :
  reachable w ->
  rem_list w !! r = Some it ->
  let w' := toggle_check r w in
  rem_list w' = <[r := flipped it]> (rem_list w) /\
  item_checkState (flipped it) <> item_checkState it /\
  item_text (flipped it) = item_text it /\
  item_flags (flipped it) = item_flags it /\
  w' = set_rem_list (rem_list w') w /\
  toggle_check r w' = w.
Proof.
  intros Hw Hr w'.
  pose proof (reachable_inv w Hw) as [Hi _ _ _ _].
  pose proof (reachable_two_state w Hw) as Ht.
  rewrite Forall_lookup in Hi. rewrite Forall_lookup in Ht.
  assert (Hl : rem_list w' = <[r := flipped it]> (rem_list w)).
  { subst w'. simpl. rewrite list_insert_alter.
    apply list_alter_ext; [|done]. intros x Hx.
    rewrite Hr in Hx. injection Hx as <-. apply toggle_flipped. eauto. }
  split; [exact Hl|]. split; [|split; [done|split; [done|split; [done|]]]].
  - destruct (Ht r it Hr) as [H|H]; unfold flipped; simpl; rewrite H; done.
  - subst w'. unfold toggle_check. simpl. rewrite list_alter_alter_eq.
    assert (Hid : alter (toggle ∘ toggle) r (rem_list w) = rem_list w).
    { rewrite <- (list_alter_id id (rem_list w) r) at 2 by done.
      apply list_alter_ext; [|done]. intros x Hx. simpl.
      rewrite (toggle_flipped x) by eauto.
      rewrite toggle_flipped.
      - apply flipped_flipped. eauto.
      - rewrite <- toggle_flipped by eauto. apply toggle_ok. eauto. }
    rewrite Hid. by destruct w.
Qed.

Lemma toggle_check_flips_one_row_witness :
  item_checkState <$> rem_list (toggle_check 1 demo_window)
  = [Some Qt.Checked; Some Qt.Checked]
  /\ toggle_check 1 (toggle_check 1 demo_window) = demo_window.
Proof.
  assert (Hr : rem_list demo_window !! 1%nat
               = Some (mkItem 1 (lit "Call mom") 53 (Some Qt.Unchecked)))
    by reflexivity.
  destruct (toggle_check_flips_one_row demo_window 1 _ demo_reachable Hr)
    as (Hl & _ & _ & _ & _ & Hback).
  split; [|exact Hback]. rewrite Hl. reflexivity.
Defined.
